(** * coordsys.js : WGS84 / PSD93 / PSD93-UTM conversions

    A shallow embedding of [src/coordsys.js] over the real numbers of the
    Standard Library.  JavaScript numbers are modelled by [R]: the
    arithmetic is exact, so rounding, NaN and the infinities are outside
    the model.  [Math.sin], [Math.cos], [Math.tan], [Math.sqrt],
    [Math.atan2] and [Math.PI] are the real functions [sin], [cos], [tan],
    [sqrt], [atan2] (below) and [PI]; [Math.pow(x, 3)] is [x ^ 3] and
    [Math.pow(x, 1.5)] is [Rpower x 1.5]. *)

From Stdlib Require Import Reals Lra Lia Psatz Factorial.
Open Scope R_scope.

(** ** JavaScript's [Math.atan2] on reals (signed zeros are not modelled) *)
Definition atan2 (y x : R) : R :=
  if Rlt_dec 0 x then atan (y / x)
  else if Rlt_dec x 0 then
    (if Rle_dec 0 y then atan (y / x) + PI else atan (y / x) - PI)
  else if Rlt_dec 0 y then PI / 2
  else if Rlt_dec y 0 then - (PI / 2)
  else 0.

(** ** Helmert parameters, WGS84 -> PSD93 (EPSG:1439) *)
Record HelmertParams := {
  dx : R; dy : R; dz : R;      (* meters *)
  rx : R; ry : R; rz : R;      (* arc-seconds *)
  scale : R                    (* ppm *)
}.

Definition helmertParams : HelmertParams := {|
  dx := -180.624; dy := -225.516; dz := 173.919;
  rx := -0.81; ry := -1.898; rz := 8.336;
  scale := 16.71006 |}.

Definition deg2rad (deg : R) : R := (deg * PI) / 180.
Definition rad2deg (rad : R) : R := (rad * 180) / PI.
Definition arcsec2rad (sec : R) : R := (sec * (PI / 180)) / 3600.

(** Arrays [[x, y, z]] returned by the source. *)
Definition triple := (R * R * R)%type.
Definition t1 (t : triple) : R := fst (fst t).
Definition t2 (t : triple) : R := snd (fst t).
Definition t3 (t : triple) : R := snd t.

(** ** Geodetic -> cartesian (ECEF) *)
Definition geodeticToECEF (lat lon h a f : R) : triple :=
  let lat := deg2rad lat in
  let lon := deg2rad lon in
  let e2 := 2 * f - f * f in
  let N := a / sqrt (1 - e2 * sin lat * sin lat) in
  let X := (N + h) * cos lat * cos lon in
  let Y := (N + h) * cos lat * sin lon in
  let Z := (N * (1 - e2) + h) * sin lat in
  (X, Y, Z).

(** ** Cartesian (ECEF) -> geodetic, single-pass Bowring *)
Definition ecefToGeodetic (X Y Z a f : R) : triple :=
  let e2 := 2 * f - f * f in
  let ep2 := e2 / (1 - e2) in
  let p := sqrt (X * X + Y * Y) in
  let theta := atan2 (Z * a) (p * (1 - f) * a) in
  let lon := atan2 Y X in
  let lat := atan2 (Z + ep2 * (1 - f) * a * sin theta ^ 3)
                   (p - e2 * a * cos theta ^ 3) in
  let N := a / sqrt (1 - e2 * sin lat * sin lat) in
  let h := p / cos lat - N in
  let lat := rad2deg lat in
  (lat, rad2deg lon, h).

(** ** The Helmert step inlined in [wgs84ToPSD93] (lines 68-78) *)
Definition helmertForward (P : triple) : triple :=
  let '(Xs, Ys, Zs) := P in
  let s := scale helmertParams * 1e-6 in
  let rx := arcsec2rad (rx helmertParams) in
  let ry := arcsec2rad (ry helmertParams) in
  let rz := arcsec2rad (rz helmertParams) in
  let tX := dx helmertParams in
  let tY := dy helmertParams in
  let tZ := dz helmertParams in
  let Xt := Xs + tX + s * Xs - rz * Ys + ry * Zs in
  let Yt := Ys + tY + rz * Xs + s * Ys - rx * Zs in
  let Zt := Zs + tZ - ry * Xs + rx * Ys + s * Zs in
  (Xt, Yt, Zt).

(** ** The inverse Helmert step inlined in [psd93ToWGS84] (lines 92-102) *)
Definition helmertInverse (P : triple) : triple :=
  let '(Xt, Yt, Zt) := P in
  let s := - scale helmertParams * 1e-6 in
  let rx := - arcsec2rad (rx helmertParams) in
  let ry := - arcsec2rad (ry helmertParams) in
  let rz := - arcsec2rad (rz helmertParams) in
  let tX := - dx helmertParams in
  let tY := - dy helmertParams in
  let tZ := - dz helmertParams in
  let Xs := Xt + tX + s * Xt - rz * Yt + ry * Zt in
  let Ys := Yt + tY + rz * Xt + s * Yt - rx * Zt in
  let Zs := Zt + tZ - ry * Xt + rx * Yt + s * Zt in
  (Xs, Ys, Zs).

(** Ellipsoids: WGS84 and Clarke 1880 (PSD93). *)
Definition a_wgs : R := 6378137.0.
Definition f_wgs : R := 1 / 298.257223563.
Definition a_psd : R := 6378249.145.
Definition f_psd : R := 1 / 293.465.

(** [wgs84ToPSD93(lat, lon, h = 0)]; the default is passed explicitly. *)
Definition wgs84ToPSD93 (lat lon h : R) : triple :=
  let '(Xt, Yt, Zt) := helmertForward (geodeticToECEF lat lon h a_wgs f_wgs) in
  ecefToGeodetic Xt Yt Zt a_psd f_psd.

Definition psd93ToWGS84 (lat lon h : R) : triple :=
  let '(Xs, Ys, Zs) := helmertInverse (geodeticToECEF lat lon h a_psd f_psd) in
  ecefToGeodetic Xs Ys Zs a_wgs f_wgs.

(** ** UTM on Clarke 1880 *)
Record UTMPoint := { easting : R; northing : R; zone : R }.
Record LatLon := { lat : R; lon : R }.

Definition psd93ToUTM (lat lon zone : R) : UTMPoint :=
  let a := 6378249.145 in
  let f := 1 / 293.465 in
  let k0 := 0.9996 in
  let e2 := 2 * f - f * f in
  let e := sqrt e2 in
  let latRad := deg2rad lat in
  let lonRad := deg2rad lon in
  let zoneCM := 6 * zone - 183 in
  let lon0 := deg2rad zoneCM in
  let N := a / sqrt (1 - e2 * sin latRad * sin latRad) in
  let T := tan latRad * tan latRad in
  let C := (e2 / (1 - e2)) * cos latRad * cos latRad in
  let A := cos latRad * (lonRad - lon0) in
  let M :=
    a *
    ((1 - e2 / 4 - (3 * e2 * e2) / 64 - (5 * e2 * e2 * e2) / 256) * latRad -
      ((3 * e2) / 8 + (3 * e2 * e2) / 32 + (45 * e2 * e2 * e2) / 1024) *
        sin (2 * latRad) +
      ((15 * e2 * e2) / 256 + (45 * e2 * e2 * e2) / 1024) *
        sin (4 * latRad) -
      ((35 * e2 * e2 * e2) / 3072) * sin (6 * latRad)) in
  let easting :=
    500000 +
    k0 *
      N *
      (A +
        ((1 - T + C) * A ^ 3) / 6 +
        ((5 - 18 * T + T * T + 72 * C - (58 * e2) / (1 - e2)) *
          A ^ 5) /
          120) in
  let northing :=
    k0 *
    (M +
      N *
        tan latRad *
        ((A * A) / 2 +
          ((5 - T + 9 * C + 4 * C * C) * A ^ 4) / 24 +
          ((61 - 58 * T + T * T + 600 * C - (330 * e2) / (1 - e2)) *
            A ^ 6) /
            720)) in
  {| easting := easting; northing := northing; zone := zone |}.

Definition utmToPSD93 (easting northing zone : R) : LatLon :=
  let a := 6378249.145 in
  let f := 1 / 293.465 in
  let k0 := 0.9996 in
  let e2 := 2 * f - f * f in
  let e := sqrt e2 in
  let e1 := (1 - sqrt (1 - e2)) / (1 + sqrt (1 - e2)) in
  let zoneCM := 6 * zone - 183 in
  let lon0 := deg2rad zoneCM in
  let x := easting - 500000 in
  let y := northing in
  let M := y / k0 in
  let mu :=
    M / (a * (1 - e2 / 4 - (3 * e2 * e2) / 64 - (5 * e2 * e2 * e2) / 256)) in
  let phi1 :=
    mu +
    ((3 * e1) / 2 - (27 * e1 ^ 3) / 32) * sin (2 * mu) +
    ((21 * e1 * e1) / 16 - (55 * e1 ^ 4) / 32) * sin (4 * mu) +
    ((151 * e1 ^ 3) / 96) * sin (6 * mu) +
    ((1097 * e1 ^ 4) / 512) * sin (8 * mu) in
  let N1 := a / sqrt (1 - e2 * sin phi1 * sin phi1) in
  let T1 := tan phi1 * tan phi1 in
  let C1 := (e2 / (1 - e2)) * cos phi1 * cos phi1 in
  let R1 :=
    (a * (1 - e2)) / Rpower (1 - e2 * sin phi1 * sin phi1) 1.5 in
  let D := x / (N1 * k0) in
  let lat := rad2deg (
    phi1 -
      ((N1 * tan phi1) / R1) *
        ((D * D) / 2 -
          ((5 + 3 * T1 + 10 * C1 - 4 * C1 * C1 - (9 * e2) / (1 - e2)) *
            D ^ 4) /
            24 +
          ((61 +
            90 * T1 +
            298 * C1 +
            45 * T1 * T1 -
            (252 * e2) / (1 - e2) -
            3 * C1 * C1) *
            D ^ 6) /
            720)) in
  let lon := rad2deg (
    lon0 +
      (D -
        ((1 + 2 * T1 + C1) * D ^ 3) / 6 +
        ((5 -
          2 * C1 +
          28 * T1 -
          3 * C1 * C1 +
          (8 * e2) / (1 - e2) +
          24 * T1 * T1) *
          D ^ 5) /
          120) /
        cos phi1) in
  {| lat := lat; lon := lon |}.

(** ** Specification-side definitions *)

(** Snyder's transverse Mercator forward series (Snyder 1987, eqs. 3-21,
    8-9 and 8-10) for an ellipsoid [(a, f)], scale [k0], false easting
    [FE] and false northing [FN], latitude of origin 0, all angles in
    radians; written from the spec's description of [geodeticToUTM]. *)
Definition snyder_tm (a f k0 FE FN phi lam lam0 : R) : R * R :=
  let e2 := 2 * f - f * f in
  let ep2 := e2 / (1 - e2) in
  let N := a / sqrt (1 - e2 * sin phi ^ 2) in
  let T := tan phi ^ 2 in
  let C := ep2 * cos phi ^ 2 in
  let A := (lam - lam0) * cos phi in
  let M := a * ((1 - e2 / 4 - 3 * e2 ^ 2 / 64 - 5 * e2 ^ 3 / 256) * phi
                - (3 * e2 / 8 + 3 * e2 ^ 2 / 32 + 45 * e2 ^ 3 / 1024) * sin (2 * phi)
                + (15 * e2 ^ 2 / 256 + 45 * e2 ^ 3 / 1024) * sin (4 * phi)
                - (35 * e2 ^ 3 / 3072) * sin (6 * phi)) in
  (FE + k0 * N * (A + (1 - T + C) * A ^ 3 / 6
                    + (5 - 18 * T + T ^ 2 + 72 * C - 58 * ep2) * A ^ 5 / 120),
   FN + k0 * (M + N * tan phi * (A ^ 2 / 2 + (5 - T + 9 * C + 4 * C ^ 2) * A ^ 4 / 24
                    + (61 - 58 * T + T ^ 2 + 600 * C - 330 * ep2) * A ^ 6 / 720))).

(** The steps of [utmToPSD93]: [mu] from the northing (lines 157-169),
    the footpoint latitude [phi1] from [mu] (lines 157-175), and the
    latitude and longitude from [x] and [phi1] (lines 157-212). *)
Definition utmMu (northing : R) : R :=
  let a := 6378249.145 in
  let f := 1 / 293.465 in
  let k0 := 0.9996 in
  let e2 := 2 * f - f * f in
  let y := northing in
  let M := y / k0 in
  M / (a * (1 - e2 / 4 - (3 * e2 * e2) / 64 - (5 * e2 * e2 * e2) / 256)).

Definition utmFootpoint (mu : R) : R :=
  let f := 1 / 293.465 in
  let e2 := 2 * f - f * f in
  let e1 := (1 - sqrt (1 - e2)) / (1 + sqrt (1 - e2)) in
  mu +
  ((3 * e1) / 2 - (27 * e1 ^ 3) / 32) * sin (2 * mu) +
  ((21 * e1 * e1) / 16 - (55 * e1 ^ 4) / 32) * sin (4 * mu) +
  ((151 * e1 ^ 3) / 96) * sin (6 * mu) +
  ((1097 * e1 ^ 4) / 512) * sin (8 * mu).

Definition utmFromFootpoint (x phi1 zone : R) : LatLon :=
  let a := 6378249.145 in
  let f := 1 / 293.465 in
  let k0 := 0.9996 in
  let e2 := 2 * f - f * f in
  let zoneCM := 6 * zone - 183 in
  let lon0 := deg2rad zoneCM in
  let N1 := a / sqrt (1 - e2 * sin phi1 * sin phi1) in
  let T1 := tan phi1 * tan phi1 in
  let C1 := (e2 / (1 - e2)) * cos phi1 * cos phi1 in
  let R1 :=
    (a * (1 - e2)) / Rpower (1 - e2 * sin phi1 * sin phi1) 1.5 in
  let D := x / (N1 * k0) in
  let lat := rad2deg (
    phi1 -
      ((N1 * tan phi1) / R1) *
        ((D * D) / 2 -
          ((5 + 3 * T1 + 10 * C1 - 4 * C1 * C1 - (9 * e2) / (1 - e2)) *
            D ^ 4) /
            24 +
          ((61 +
            90 * T1 +
            298 * C1 +
            45 * T1 * T1 -
            (252 * e2) / (1 - e2) -
            3 * C1 * C1) *
            D ^ 6) /
            720)) in
  let lon := rad2deg (
    lon0 +
      (D -
        ((1 + 2 * T1 + C1) * D ^ 3) / 6 +
        ((5 -
          2 * C1 +
          28 * T1 -
          3 * C1 * C1 +
          (8 * e2) / (1 - e2) +
          24 * T1 * T1) *
          D ^ 5) /
          120) /
        cos phi1) in
  {| lat := lat; lon := lon |}.

(** Componentwise difference of cartesian points. *)
Definition tsub (P Q : triple) : triple :=
  let '(x1, y1, z1) := P in let '(x2, y2, z2) := Q in (x1 - x2, y1 - y2, z1 - z2).

(** The linear part of the Helmert step with the stored parameters:
    scale [s] on the diagonal and the rotations off it, so that
    [helmertForward P = P + t + helmertLinear P]. *)
Definition helmertLinear (P : triple) : triple :=
  let '(X, Y, Z) := P in
  let s := scale helmertParams * 1e-6 in
  let rx := arcsec2rad (rx helmertParams) in
  let ry := arcsec2rad (ry helmertParams) in
  let rz := arcsec2rad (rz helmertParams) in
  (s * X - rz * Y + ry * Z, rz * X + s * Y - rx * Z, - ry * X + rx * Y + s * Z).

(** ** Enclosures of real functions used to evaluate the fixture *)

Lemma INR_fact_S (n : nat) : INR (fact (S n)) = INR (S n) * INR (fact n).
Proof. rewrite fact_simpl, mult_INR. reflexivity. Qed.

Ltac taylor_poly :=
  cbn [sum_f_R0 Nat.mul Nat.add pow];
  rewrite ?INR_fact_S; cbn [fact]; rewrite ?INR_IZR_INZ;
  cbn [Z.of_nat Pos.of_succ_nat Pos.succ];
  unfold Rdiv; field.

Lemma sin_ub_eq (a : R) : sin_ub a = a - a^3/6 + a^5/120 - a^7/5040 + a^9/362880.
Proof. unfold sin_ub, sin_approx, sin_term. taylor_poly. Qed.

Lemma sin_lb_eq (a : R) : sin_lb a = a - a^3/6 + a^5/120 - a^7/5040.
Proof. unfold sin_lb, sin_approx, sin_term. taylor_poly. Qed.

Lemma cos_ub_eq (a : R) : cos_ub a = 1 - a^2/2 + a^4/24 - a^6/720 + a^8/40320.
Proof. unfold cos_ub, cos_approx, cos_term. taylor_poly. Qed.

Lemma cos_lb_eq (a : R) : cos_lb a = 1 - a^2/2 + a^4/24 - a^6/720.
Proof. unfold cos_lb, cos_approx, cos_term. taylor_poly. Qed.

Lemma pi_bounds : 3.1415926 < PI < 3.1415927.
Proof.
  destruct (PI_2_3_7_ineq 3) as [Hl Hu].
  unfold tg_alt, PI_2_3_7_tg, Ratan_seq in Hl, Hu.
  simpl in Hl, Hu.
  split; lra.
Qed.

Lemma mul_iv (a b c d x y : R) :
  a <= x <= b -> c <= y <= d -> 0 <= a -> 0 <= c -> a * c <= x * y <= b * d.
Proof. intros. split; apply Rmult_le_compat; lra. Qed.

Lemma div_iv (a b c d x y : R) :
  a <= x <= b -> c <= y <= d -> 0 <= a -> 0 < c -> a / d <= x / y <= b / c.
Proof.
  intros Hx Hy Ha Hc. unfold Rdiv.
  assert (/ d <= / y) by (apply Rinv_le_contravar; lra).
  assert (/ y <= / c) by (apply Rinv_le_contravar; lra).
  assert (0 < / d) by (apply Rinv_0_lt_compat; lra).
  split; apply Rmult_le_compat; lra.
Qed.

Lemma pow_iv (a b x : R) (n : nat) : a <= x <= b -> 0 <= a -> a ^ n <= x ^ n <= b ^ n.
Proof. intros Hx Ha. split; apply pow_incr; lra. Qed.

Lemma Rplus_0_r_iv (a b x : R) : a <= x <= b -> a <= x + 0 <= b.
Proof. rewrite Rplus_0_r. exact (fun H => H). Qed.

Lemma sqrt_iv (r1 r2 v : R) :
  0 <= r1 -> r1 * r1 <= v -> v <= r2 * r2 -> 0 <= r2 -> r1 <= sqrt v <= r2.
Proof.
  intros H1 H2 H3 H4. split.
  - rewrite <- (sqrt_square r1) by lra. apply sqrt_le_1_alt. lra.
  - rewrite <- (sqrt_square r2) by lra. apply sqrt_le_1_alt. lra.
Qed.

Lemma sin_iv (lo hi x : R) :
  lo <= x <= hi -> 0 <= lo -> hi <= 3 / 2 -> sin_lb lo <= sin x <= sin_ub hi.
Proof.
  intros Hx H0 Hhi. pose proof PI2_3_2.
  destruct (SIN lo) as [Hl _]; try lra.
  destruct (SIN hi) as [_ Hh]; try lra.
  assert (sin lo <= sin x).
  { destruct (Rle_lt_or_eq_dec lo x) as [Hlt|Heq]; [lra| |].
    - left; apply sin_increasing_1; lra.
    - rewrite Heq; lra. }
  assert (sin x <= sin hi).
  { destruct (Rle_lt_or_eq_dec x hi) as [Hlt|Heq]; [lra| |].
    - left; apply sin_increasing_1; lra.
    - rewrite Heq; lra. }
  lra.
Qed.

Lemma cos_iv (lo hi x : R) :
  lo <= x <= hi -> 0 <= lo -> hi <= 3 / 2 -> cos_lb hi <= cos x <= cos_ub lo.
Proof.
  intros Hx H0 Hhi. pose proof PI2_3_2.
  destruct (COS lo) as [_ Hl]; try lra.
  destruct (COS hi) as [Hh _]; try lra.
  assert (cos x <= cos lo).
  { destruct (Rle_lt_or_eq_dec lo x) as [Hlt|Heq]; [lra| |].
    - left; apply cos_decreasing_1; lra.
    - rewrite Heq; lra. }
  assert (cos hi <= cos x).
  { destruct (Rle_lt_or_eq_dec x hi) as [Hlt|Heq]; [lra| |].
    - left; apply cos_decreasing_1; lra.
    - rewrite Heq; lra. }
  lra.
Qed.

Lemma atan_iv (t1 t2 q : R) :
  0 <= t1 -> t1 <= t2 -> t2 <= 3 / 2 ->
  0 < cos_lb t1 -> sin_ub t1 <= q * cos_lb t1 ->
  q * cos_ub t2 <= sin_lb t2 ->
  t1 <= atan q <= t2.
Proof.
  intros H1 H12 H2 Hc1 Hq1 Hq2. pose proof PI2_3_2.
  pose proof (atan_bound q) as [Ab1 Ab2].
  destruct (SIN t1) as [Hs1l Hs1u]; try lra.
  destruct (COS t1) as [Hc1l Hc1u]; try lra.
  destruct (SIN t2) as [Hs2l Hs2u]; try lra.
  destruct (COS t2) as [Hc2l Hc2u]; try lra.
  assert (Hsin1 : 0 <= sin t1) by (apply sin_ge_0; lra).
  assert (Hq : 0 <= q) by nra.
  split.
  - destruct (Rle_or_lt t1 (atan q)) as [Hle|Hlt]; [exact Hle|].
    exfalso.
    assert (Ht : tan (atan q) < tan t1) by (apply tan_increasing; lra).
    rewrite tan_atan in Ht. unfold tan in Ht.
    assert (Hct : 0 < cos t1) by lra.
    assert (Hsq : sin t1 <= q * cos t1) by nra.
    assert (sin t1 / cos t1 <= q).
    { unfold Rdiv. apply (Rmult_le_reg_r (cos t1)); [lra|].
      rewrite Rmult_assoc, Rinv_l by lra. lra. }
    lra.
  - destruct (Rle_or_lt (atan q) t2) as [Hle|Hlt]; [exact Hle|].
    exfalso.
    assert (Ht : tan t2 < tan (atan q)) by (apply tan_increasing; lra).
    rewrite tan_atan in Ht. unfold tan in Ht.
    assert (Hct : 0 < cos t2) by (apply cos_gt_0; lra).
    assert (Hsq : q * cos t2 <= sin t2) by nra.
    assert (q <= sin t2 / cos t2).
    { unfold Rdiv. apply (Rmult_le_reg_r (cos t2)); [lra|].
      rewrite Rmult_assoc, Rinv_l by lra. lra. }
    lra.
Qed.

Lemma atan2_pos (y x : R) : 0 < x -> atan2 y x = atan (y / x).
Proof. intros Hx. unfold atan2. destruct (Rlt_dec 0 x); [reflexivity | lra]. Qed.

Lemma ecefToGeodetic_pos (X Y Z a f p th num den : R) :
  0 < X -> 0 < a -> f < 1 ->
  p = sqrt (X * X + Y * Y) ->
  th = atan (Z / (p * (1 - f))) ->
  num = Z + (2 * f - f * f) / (1 - (2 * f - f * f)) * (1 - f) * a * sin th ^ 3 ->
  den = p - (2 * f - f * f) * a * cos th ^ 3 ->
  0 < den ->
  t1 (ecefToGeodetic X Y Z a f) = rad2deg (atan (num / den)) /\
  t2 (ecefToGeodetic X Y Z a f) = rad2deg (atan (Y / X)).
Proof.
  intros HX Ha Hf Hp Hth Hnum Hden Hd.
  assert (Hp0 : 0 < p) by (rewrite Hp; apply sqrt_lt_R0; nra).
  assert (Hpa : 0 < p * (1 - f) * a)
    by (apply Rmult_lt_0_compat; [apply Rmult_lt_0_compat|]; lra).
  unfold ecefToGeodetic, t1, t2; cbn [fst snd].
  rewrite <- Hp.
  rewrite (atan2_pos (Z * a) _ Hpa).
  replace (Z * a / (p * (1 - f) * a)) with (Z / (p * (1 - f))) by (field; lra).
  rewrite <- Hth, <- Hnum, <- Hden.
  rewrite (atan2_pos num den Hd), (atan2_pos Y X HX).
  split; reflexivity.
Qed.

(** ** General lemmas *)

Lemma atan2_range (y x : R) : - PI <= atan2 y x <= PI.
Proof.
  pose proof PI_RGT_0 as Hpi.
  pose proof (atan_bound (y / x)) as [Hlo Hhi].
  unfold atan2.
  destruct (Rlt_dec 0 x) as [Hx|Hx]; [lra|].
  destruct (Rlt_dec x 0) as [Hx'|Hx'].
  - assert (Hix : / x < 0) by (apply Rinv_lt_0_compat; lra).
    destruct (Rle_dec 0 y) as [Hy|Hy].
    + assert (Hq : y / x <= 0) by (unfold Rdiv; nra).
      assert (atan (y / x) <= 0).
      { destruct (Rle_lt_or_eq_dec _ _ Hq) as [Hq'|Hq'].
        - rewrite <- atan_0; left; now apply atan_increasing.
        - rewrite Hq', atan_0; lra. }
      lra.
    + assert (Hq : 0 < y / x) by (unfold Rdiv; nra).
      assert (0 < atan (y / x)) by (rewrite <- atan_0; now apply atan_increasing).
      lra.
  - destruct (Rlt_dec 0 y); [lra|].
    destruct (Rlt_dec y 0); lra.
Qed.

Lemma rad2deg_range (r : R) : - PI <= r <= PI -> -180 <= rad2deg r <= 180.
Proof.
  intros Hr. pose proof PI_RGT_0 as Hpi.
  assert (E : rad2deg r = 180 * (r / PI)) by (unfold rad2deg; field; lra).
  assert (E2 : r / PI * PI = r) by (field; lra).
  rewrite E. split; nra.
Qed.

Lemma rad2deg_shift (c w : R) : rad2deg (deg2rad c + w) = c + rad2deg w.
Proof. unfold rad2deg, deg2rad. pose proof PI_neq0. field. auto. Qed.

Lemma deg2rad_rad2deg (r : R) : deg2rad (rad2deg r) = r.
Proof. unfold rad2deg, deg2rad. pose proof PI_neq0. field. auto. Qed.

Lemma sin2_cos2' (x : R) : sin x * sin x + cos x * cos x = 1.
Proof. pose proof (sin2_cos2 x) as H. unfold Rsqr in H. lra. Qed.

Lemma atan2_sin_cos (K t : R) :
  0 < K -> - PI < t <= PI -> atan2 (K * sin t) (K * cos t) = t.
Proof.
  intros HK Ht. pose proof PI_RGT_0 as Hpi.
  assert (Htan : forall u, cos u <> 0 -> K * sin u / (K * cos u) = tan u)
    by (intros u Hu; unfold tan; field; lra).
  destruct (Rlt_le_dec t (- (PI / 2))) as [H1|H1].
  - (* (-PI, -PI/2) *)
    assert (Hc : cos t < 0).
    { rewrite <- cos_neg. apply cos_lt_0; lra. }
    assert (Hs : sin t < 0) by (apply sin_lt_0_var; lra).
    unfold atan2.
    destruct (Rlt_dec 0 (K * cos t)); [nra|].
    destruct (Rlt_dec (K * cos t) 0); [|nra].
    destruct (Rle_dec 0 (K * sin t)); [nra|].
    rewrite Htan by lra.
    assert (E : tan t = tan (t + PI)).
    { unfold tan. rewrite neg_sin, neg_cos. field. lra. }
    rewrite E, atan_tan by lra. lra.
  - destruct (Rle_lt_or_eq_dec _ _ H1) as [H2|H2].
    + destruct (Rlt_le_dec t (PI / 2)) as [H3|H3].
      * assert (Hc : 0 < cos t) by (apply cos_gt_0; lra).
        unfold atan2. destruct (Rlt_dec 0 (K * cos t)); [|nra].
        rewrite Htan by lra. apply atan_tan. lra.
      * destruct (Rle_lt_or_eq_dec _ _ H3) as [H4|H4].
        -- assert (Hc : cos t < 0) by (apply cos_lt_0; lra).
           assert (Hs : 0 <= sin t) by (apply sin_ge_0; lra).
           unfold atan2.
           destruct (Rlt_dec 0 (K * cos t)); [nra|].
           destruct (Rlt_dec (K * cos t) 0); [|nra].
           destruct (Rle_dec 0 (K * sin t)); [|nra].
           rewrite Htan by lra.
           assert (E : tan t = tan (t - PI)).
           { unfold tan. rewrite sin_minus, cos_minus, sin_PI, cos_PI. field. lra. }
           rewrite E, atan_tan by lra. lra.
        -- subst t. rewrite cos_PI2, sin_PI2, Rmult_0_r, Rmult_1_r.
           unfold atan2. repeat destruct (Rlt_dec _ _); lra.
    + subst t. rewrite cos_neg, sin_neg, cos_PI2, sin_PI2, Rmult_0_r.
      unfold atan2. repeat destruct (Rlt_dec _ _); lra.
Qed.

Lemma atan2_0_pos (x : R) : 0 < x -> atan2 0 x = 0.
Proof. intros Hx. rewrite atan2_pos by exact Hx. unfold Rdiv. rewrite Rmult_0_l. apply atan_0. Qed.

Lemma rad2deg_deg2rad (d : R) : rad2deg (deg2rad d) = d.
Proof. unfold rad2deg, deg2rad. pose proof PI_neq0. field. auto. Qed.

Lemma e2_range (f : R) : 0 <= f < 1 -> 0 <= 2 * f - f * f < 1.
Proof. intros [H0 H1]. split; nra. Qed.

Lemma N_ge_a (a f s : R) : 0 < a -> 0 <= f < 1 -> -1 <= s <= 1 ->
  0 < 1 - (2 * f - f * f) * s * s /\ a <= a / sqrt (1 - (2 * f - f * f) * s * s).
Proof.
  intros Ha Hf Hs. pose proof (e2_range f Hf) as He.
  assert (Hss : 0 <= s * s <= 1) by nra.
  assert (HD : 0 < 1 - (2 * f - f * f) * s * s) by nra.
  split; [exact HD|].
  assert (Hq : 0 < sqrt (1 - (2 * f - f * f) * s * s)) by (apply sqrt_lt_R0; exact HD).
  assert (Hq1 : sqrt (1 - (2 * f - f * f) * s * s) <= 1).
  { apply Rle_trans with (sqrt 1); [apply sqrt_le_1_alt; nra | rewrite sqrt_1; lra]. }
  apply (Rmult_le_reg_r (sqrt (1 - (2 * f - f * f) * s * s))); [exact Hq|].
  replace (a / sqrt (1 - (2 * f - f * f) * s * s) * sqrt (1 - (2 * f - f * f) * s * s))
    with a by (field; lra).
  nra.
Qed.

Lemma ellipsoid_identity (a f q cl sl c s : R) : 0 < a -> 0 < q -> 0 < 1 - f ->
  (a / q * c * cl * (a / q * c * cl) + a / q * c * sl * (a / q * c * sl)) / (a * a) +
  a / q * (1 - (2 * f - f * f)) * s * (a / q * (1 - (2 * f - f * f)) * s) /
  (a * (1 - f) * (a * (1 - f)))
  = (c * c * (sl * sl + cl * cl) + (1 - (2 * f - f * f)) * s * s) / (q * q).
Proof. intros Ha Hq Hf. field. repeat split; lra. Qed.

Lemma atan2_opp (y x : R) : ~ (y = 0 /\ x < 0) -> atan2 (- y) x = - atan2 y x.
Proof.
  intros Hyx. unfold atan2.
  replace (- y / x) with (- (y / x)) by (unfold Rdiv; ring).
  rewrite atan_opp.
  destruct (Rlt_dec 0 x); [reflexivity|].
  destruct (Rlt_dec x 0).
  - destruct (Rle_dec 0 (- y)); destruct (Rle_dec 0 y).
    + assert (y = 0) by lra. exfalso; apply Hyx; split; assumption.
    + lra.
    + lra.
    + lra.
  - repeat destruct (Rlt_dec _ _); lra.
Qed.

Lemma bowring_num_pos (Z p a f : R) :
  0 < Z -> 0 <= p -> 0 < a -> 0 <= f < 1 ->
  0 < Z + (2 * f - f * f) / (1 - (2 * f - f * f)) * (1 - f) * a *
          sin (atan2 (Z * a) (p * (1 - f) * a)) ^ 3.
Proof.
  intros HZ Hp Ha Hf. pose proof PI_RGT_0 as Hpi.
  pose proof (e2_range f Hf) as He.
  assert (Hs : 0 < sin (atan2 (Z * a) (p * (1 - f) * a))).
  { unfold atan2.
    destruct (Rlt_dec 0 (p * (1 - f) * a)) as [Hx|Hx].
    - assert (Hq : 0 < Z * a / (p * (1 - f) * a))
        by (apply Rdiv_lt_0_compat; [nra | exact Hx]).
      pose proof (atan_bound (Z * a / (p * (1 - f) * a))).
      assert (0 < atan (Z * a / (p * (1 - f) * a)))
        by (rewrite <- atan_0; apply atan_increasing; exact Hq).
      apply sin_gt_0; lra.
    - destruct (Rlt_dec (p * (1 - f) * a) 0) as [Hx'|Hx'].
      + exfalso. assert (0 <= p * (1 - f) * a).
        { apply Rmult_le_pos; [apply Rmult_le_pos|]; lra. }
        lra.
      + destruct (Rlt_dec 0 (Z * a)) as [_|Hn]; [rewrite sin_PI2; lra | nra]. }
  assert (Hk : 0 <= (2 * f - f * f) / (1 - (2 * f - f * f)) * (1 - f) * a).
  { apply Rmult_le_pos; [apply Rmult_le_pos|]; try lra.
    unfold Rdiv; apply Rmult_le_pos; [lra | left; apply Rinv_0_lt_compat; lra]. }
  assert (0 < sin (atan2 (Z * a) (p * (1 - f) * a)) ^ 3) by (apply pow_lt; exact Hs).
  nra.
Qed.

Lemma geodeticToECEF_lon_period (lat lon h a f : R) (n : nat) :
  geodeticToECEF lat (lon + 360 * INR n) h a f = geodeticToECEF lat lon h a f.
Proof.
  unfold geodeticToECEF.
  replace (deg2rad (lon + 360 * INR n)) with (deg2rad lon + 2 * INR n * PI)
    by (unfold deg2rad; field).
  rewrite cos_period, sin_period. reflexivity.
Qed.

Lemma utmToPSD93_split (E n z : R) :
  utmToPSD93 E n z = utmFromFootpoint (E - 500000) (utmFootpoint (utmMu n)) z.
Proof. reflexivity. Qed.

Lemma utmMu_opp (n : R) : utmMu (- n) = - utmMu n.
Proof. unfold utmMu. unfold Rdiv. ring. Qed.

Lemma utmMu_0 : utmMu 0 = 0.
Proof. unfold utmMu. unfold Rdiv. ring. Qed.

Lemma utmFootpoint_opp (mu : R) : utmFootpoint (- mu) = - utmFootpoint mu.
Proof.
  unfold utmFootpoint.
  replace (2 * - mu) with (- (2 * mu)) by ring.
  replace (4 * - mu) with (- (4 * mu)) by ring.
  replace (6 * - mu) with (- (6 * mu)) by ring.
  replace (8 * - mu) with (- (8 * mu)) by ring.
  rewrite !sin_neg. ring.
Qed.

Lemma utmFootpoint_0 : utmFootpoint 0 = 0.
Proof. unfold utmFootpoint. rewrite !Rmult_0_r, sin_0. ring. Qed.

Lemma utmFromFootpoint_opp (x phi z : R) :
  lat (utmFromFootpoint x (- phi) z) = - lat (utmFromFootpoint x phi z) /\
  lon (utmFromFootpoint x (- phi) z) = lon (utmFromFootpoint x phi z).
Proof.
  unfold utmFromFootpoint; cbn [lat lon].
  rewrite sin_neg, cos_neg, tan_neg.
  replace (1 - (2 * (1 / 293.465) - 1 / 293.465 * (1 / 293.465)) * - sin phi * - sin phi)
    with (1 - (2 * (1 / 293.465) - 1 / 293.465 * (1 / 293.465)) * sin phi * sin phi) by ring.
  unfold rad2deg, Rdiv. split; ring.
Qed.

Lemma utmFromFootpoint_lat_0 (x z : R) : lat (utmFromFootpoint x 0 z) = 0.
Proof.
  unfold utmFromFootpoint; cbn [lat]. rewrite tan_0.
  unfold rad2deg, Rdiv. ring.
Qed.

Lemma utmFromFootpoint_zone_shift (x phi z k : R) :
  utmFromFootpoint x phi (z + k) =
  {| lat := lat (utmFromFootpoint x phi z); lon := lon (utmFromFootpoint x phi z) + 6 * k |}.
Proof.
  unfold utmFromFootpoint; cbn [lat lon].
  rewrite !rad2deg_shift. f_equal. ring.
Qed.

Lemma psd93ToUTM_origin (z : R) :
  psd93ToUTM 0 (6 * z - 183) z = {| easting := 500000; northing := 0; zone := z |}.
Proof.
  unfold psd93ToUTM.
  replace (deg2rad 0) with 0 by (unfold deg2rad, Rdiv; ring).
  rewrite Rminus_diag, !Rmult_0_r, sin_0, tan_0.
  f_equal; unfold Rdiv; ring.
Qed.

Lemma utmFromFootpoint_origin (z : R) :
  utmFromFootpoint 0 0 z = {| lat := 0; lon := 6 * z - 183 |}.
Proof.
  unfold utmFromFootpoint.
  rewrite sin_0, tan_0, cos_0, !Rmult_0_r, Rminus_0_r, sqrt_1.
  pose proof PI_neq0.
  f_equal; unfold rad2deg, deg2rad, Rdiv; [ring|]. field. repeat split; lra.
Qed.

(** ** C10 : on the central meridian the easting is the false easting *)

(** C10: for every latitude and zone, a point on the zone's central
    meridian [6 zone - 183] has easting exactly 500000, and the zone
    field of the result is the input zone. *)
Theorem psd93ToUTM_on_central_meridian (la z : R) :
  easting (psd93ToUTM la (6 * z - 183) z) = 500000 /\
  forall lo, zone (psd93ToUTM la lo z) = z.
Proof.
  split; [|reflexivity].
  unfold psd93ToUTM; cbn [easting].
  rewrite Rminus_diag, Rmult_0_r. unfold Rdiv. ring.
Qed.

(** ** C5 : the central meridian of a zone *)

(** C5: for every zone, both projections use the meridian
    [6 zone - 183] (degrees) as their central meridian: the forward
    projection is antisymmetric in easting and symmetric in northing
    about it, and the inverse projection maps the false easting 500000
    to it exactly and is symmetric about it. *)
Theorem central_meridian_is_6zone_minus_183 (z : R) :
  let cm := 6 * z - 183 in
  (forall la d,
     easting (psd93ToUTM la (cm + d) z) - 500000 =
       - (easting (psd93ToUTM la (cm - d) z) - 500000) /\
     northing (psd93ToUTM la (cm + d) z) = northing (psd93ToUTM la (cm - d) z)) /\
  (forall x n,
     lon (utmToPSD93 500000 n z) = cm /\
     lon (utmToPSD93 (500000 + x) n z) - cm = - (lon (utmToPSD93 (500000 - x) n z) - cm) /\
     lat (utmToPSD93 (500000 + x) n z) = lat (utmToPSD93 (500000 - x) n z)).
Proof.
  intros cm. split.
  - intros la d.
    assert (HA : deg2rad (cm + d) - deg2rad (6 * z - 183) =
                 - (deg2rad (cm - d) - deg2rad (6 * z - 183))).
    { unfold cm, deg2rad, Rdiv. ring. }
    unfold psd93ToUTM; cbn [easting northing].
    rewrite HA. unfold Rdiv. split; ring.
  - intros x n.
    unfold utmToPSD93; cbn [lat lon].
    replace (500000 - 500000) with (0 * 1) by ring.
    replace (500000 + x - 500000) with (x * 1) by ring.
    replace (500000 - x - 500000) with (- x * 1) by ring.
    rewrite !rad2deg_shift. unfold cm, rad2deg, Rdiv.
    split; [|split]; ring.
Qed.

(** ** C9 : range of the returned longitude *)

(** C9: the longitude returned by [ecefToGeodetic], and hence by
    [wgs84ToPSD93] and [psd93ToWGS84], lies in [[-180, 180]] for every
    input, whatever the input longitude. *)
Theorem ecefToGeodetic_lon_range :
  (forall X Y Z a f, -180 <= t2 (ecefToGeodetic X Y Z a f) <= 180) /\
  (forall la lo h, -180 <= t2 (wgs84ToPSD93 la lo h) <= 180) /\
  (forall la lo h, -180 <= t2 (psd93ToWGS84 la lo h) <= 180).
Proof.
  assert (H : forall X Y Z a f, -180 <= t2 (ecefToGeodetic X Y Z a f) <= 180).
  { intros. unfold ecefToGeodetic, t2; cbn [fst snd].
    apply rad2deg_range, atan2_range. }
  split; [exact H| split; intros la lo h].
  - unfold wgs84ToPSD93. destruct (helmertForward _) as [[? ?] ?]. apply H.
  - unfold psd93ToWGS84. destruct (helmertInverse _) as [[? ?] ?]. apply H.
Qed.

(** ** C6 : the forward projection is Snyder's series on Clarke 1880 *)

(** C6: [psd93ToUTM] is Snyder's transverse Mercator series on the
    Clarke 1880 ellipsoid (a = 6378249.145, f = 1/293.465) with
    k0 = 0.9996, false easting 500000 and false northing 0; in particular
    every point of the equator has northing 0 (no 10,000,000 m offset). *)
Theorem psd93ToUTM_is_snyder_clarke1880 :
  (forall la lo z,
    psd93ToUTM la lo z =
    {| easting := fst (snyder_tm a_psd f_psd 0.9996 500000 0
                         (deg2rad la) (deg2rad lo) (deg2rad (6 * z - 183)));
       northing := snd (snyder_tm a_psd f_psd 0.9996 500000 0
                         (deg2rad la) (deg2rad lo) (deg2rad (6 * z - 183)));
       zone := z |}) /\
  (forall lo z, northing (psd93ToUTM 0 lo z) = 0).
Proof.
  split.
  - intros la lo z. unfold psd93ToUTM, snyder_tm, a_psd, f_psd; cbn [fst snd].
    assert (E : forall f L, 1 - (2 * f - f * f) * sin L ^ 2 =
                            1 - (2 * f - f * f) * sin L * sin L) by (intros; ring).
    rewrite E.
    unfold Rdiv. f_equal; ring.
  - intros lo z. unfold psd93ToUTM; cbn [northing].
    replace (deg2rad 0) with 0 by (unfold deg2rad, Rdiv; ring).
    rewrite tan_0, !Rmult_0_r, sin_0. unfold Rdiv. ring.
Qed.

(** ** C2 : forward then inverse Helmert *)

(** C2 (amended): forward Helmert followed by the negated-parameter
    inverse returns the original point minus the second-order residual
    [helmertLinear (helmertForward P - P)]; the negation is a first-order
    inverse, not an exact one. *)
Theorem helmert_roundtrip_residual (P : triple) :
  helmertInverse (helmertForward P) =
  tsub P (helmertLinear (tsub (helmertForward P) P)).
Proof.
  destruct P as [[X Y] Z].
  unfold helmertInverse, helmertForward, helmertLinear, tsub; cbn.
  unfold Rdiv. f_equal; [f_equal|]; ring.
Qed.

(** C2 (counterexample): at the origin of the cartesian frame, forward
    then inverse Helmert does not return the origin (the X residual is
    about -4.5 mm). *)
Lemma helmert_roundtrip_not_identity_at_origin :
  helmertInverse (helmertForward (0, 0, 0)) <> (0, 0, 0).
Proof.
  intro E. apply (f_equal t1) in E. revert E.
  unfold helmertInverse, helmertForward, t1, arcsec2rad; cbn.
  pose proof PI2_3_2. unfold Rdiv. lra.
Qed.

(** ** The Muscat fixture *)

Lemma muscat_theta_iv (q : R) :
  0.4352526401 <= q <= 0.4352604685 -> 0.41052256921100 <= atan q <= 0.41052915967100.
Proof.
  intros Hq. apply atan_iv; [lra | lra | lra | rewrite cos_lb_eq; lra
  | rewrite sin_ub_eq, cos_lb_eq; lra | rewrite cos_ub_eq, sin_lb_eq; lra].
Qed.

Lemma muscat_phi_iv (q : R) :
  0.4367409060 <= q <= 0.4367488499 -> 0.41177311462800 <= atan q <= 0.41177979511200.
Proof.
  intros Hq. apply atan_iv; [lra | lra | lra | rewrite cos_lb_eq; lra
  | rewrite sin_ub_eq, cos_lb_eq; lra | rewrite cos_ub_eq, sin_lb_eq; lra].
Qed.

Lemma muscat_lam_iv (q : R) :
  1.624567841 <= q <= 1.624663632 -> 1.0189983289300 <= atan q <= 1.0190509145800.
Proof.
  intros Hq. apply atan_iv; [lra | lra | lra | rewrite cos_lb_eq; lra
  | rewrite sin_ub_eq, cos_lb_eq; lra | rewrite cos_ub_eq, sin_lb_eq; lra].
Qed.

(** The intermediate values of the fixture, enclosed step by step: the
    ECEF point on WGS84, its Helmert image, the Bowring auxiliary angle
    and the PSD93 latitude and longitude (in radians). *)
Lemma muscat_psd93 :
  exists phi lam,
    t1 (wgs84ToPSD93 23.588 58.3829 0) = rad2deg phi /\
    t2 (wgs84ToPSD93 23.588 58.3829 0) = rad2deg lam /\
    0.41177311462800 <= phi <= 0.41177979511200 /\ 1.0189983289300 <= lam <= 1.0190509145800 /\
    0.4367409060 <= tan phi <= 0.4367488499.
Proof.
  pose proof pi_bounds as Hpi.
  set (la := deg2rad 23.588). set (lo := deg2rad 58.3829).
  set (Nw := 6378137.0 / sqrt (1 - (2 * (1 / 298.257223563) - 1 / 298.257223563 * (1 / 298.257223563)) * sin la * sin la)).
  set (Xs := (Nw + 0) * cos la * cos lo).
  set (Ys := (Nw + 0) * cos la * sin lo).
  set (Zs := (Nw * (1 - (2 * (1 / 298.257223563) - 1 / 298.257223563 * (1 / 298.257223563))) + 0) * sin la).
  assert (HE : geodeticToECEF 23.588 58.3829 0 a_wgs f_wgs = (Xs, Ys, Zs)) by reflexivity.
  set (Xt := Xs + -180.624 + 16.71006 * 1e-6 * Xs - 8.336 * (PI / 180) / 3600 * Ys
             + -1.898 * (PI / 180) / 3600 * Zs).
  set (Yt := Ys + -225.516 + 8.336 * (PI / 180) / 3600 * Xs + 16.71006 * 1e-6 * Ys
             - -0.81 * (PI / 180) / 3600 * Zs).
  set (Zt := Zs + 173.919 - -1.898 * (PI / 180) / 3600 * Xs + -0.81 * (PI / 180) / 3600 * Ys
             + 16.71006 * 1e-6 * Zs).
  assert (HH : helmertForward (Xs, Ys, Zs) = (Xt, Yt, Zt)) by reflexivity.
  set (p := sqrt (Xt * Xt + Yt * Yt)).
  set (th := atan (Zt / (p * (1 - 1 / 293.465)))).
  set (num := Zt + (2 * (1 / 293.465) - 1 / 293.465 * (1 / 293.465)) / (1 - (2 * (1 / 293.465) - 1 / 293.465 * (1 / 293.465))) * (1 - 1 / 293.465) * 6378249.145 * sin th ^ 3).
  set (den := p - (2 * (1 / 293.465) - 1 / 293.465 * (1 / 293.465)) * 6378249.145 * cos th ^ 3).
  (* geodetic -> ECEF on WGS84 *)
  assert (Hla : 0.4116882569 <= la <= 0.4116882701) by (unfold la, deg2rad; lra).
  assert (Hlo : 1.018973814 <= lo <= 1.018973847) by (unfold lo, deg2rad; lra).
  assert (Hs1 : 0.4001570938 <= sin la <= 0.4001571069).
  { pose proof (sin_iv _ _ _ Hla ltac:(lra) ltac:(lra)) as H.
    rewrite sin_lb_eq, sin_ub_eq in H. lra. }
  assert (Hc1 : 0.9164465354 <= cos la <= 0.9164465613).
  { pose proof (cos_iv _ _ _ Hla ltac:(lra) ltac:(lra)) as H.
    rewrite cos_lb_eq, cos_ub_eq in H. lra. }
  assert (Hs2 : 0.8515672695 <= sin lo <= 0.8515705505).
  { pose proof (sin_iv _ _ _ Hlo ltac:(lra) ltac:(lra)) as H.
    rewrite sin_lb_eq, sin_ub_eq in H. lra. }
  assert (Hc2 : 0.5242115727 <= cos lo <= 0.5242404269).
  { pose proof (cos_iv _ _ _ Hlo ltac:(lra) ltac:(lra)) as H.
    rewrite cos_lb_eq, cos_ub_eq in H. lra. }
  assert (Hss1 : 0.1601256997 <= sin la * sin la <= 0.1601257103).
  { pose proof (mul_iv _ _ _ _ _ _ Hs1 Hs1 ltac:(lra) ltac:(lra)). lra. }
  assert (Hsqw : 0.99946388511400 <= sqrt (1 - (2 * (1 / 298.257223563) - 1 / 298.257223563 * (1 / 298.257223563)) * sin la * sin la) <= 0.99946388515100).
  { apply sqrt_iv; lra. }
  assert (HNw : 6381558.248 <= Nw <= 6381558.249).
  { pose proof (div_iv _ _ _ _ _ _ (conj (Rle_refl 6378137.0) (Rle_refl 6378137.0)) Hsqw
                 ltac:(lra) ltac:(lra)).
    unfold Nw. lra. }
  assert (HNc1 : 5848356.946 <= (Nw + 0) * cos la <= 5848357.114).
  { pose proof (mul_iv _ _ _ _ _ _ (Rplus_0_r_iv _ _ _ HNw) Hc1 ltac:(lra) ltac:(lra)). lra. }
  assert (HXs : 3065776.392 <= Xs <= 3065945.231).
  { pose proof (mul_iv _ _ _ _ _ _ HNc1 Hc2 ltac:(lra) ltac:(lra)). unfold Xs. lra. }
  assert (HYs : 4980269.355 <= Ys <= 4980288.688).
  { pose proof (mul_iv _ _ _ _ _ _ HNc1 Hs2 ltac:(lra) ltac:(lra)). unfold Ys. lra. }
  assert (HNw1 : 6338837.672 <= Nw * (1 - (2 * (1 / 298.257223563) - 1 / 298.257223563 * (1 / 298.257223563))) + 0 <= 6338837.674) by lra.
  assert (HZs : 2536530.860 <= Zs <= 2536530.945).
  { pose proof (mul_iv _ _ _ _ _ _ HNw1 Hs1 ltac:(lra) ltac:(lra)). unfold Zs. lra. }
  (* Helmert *)
  assert (Hk : 0.01745329222 <= PI / 180 <= 0.01745329278) by lra.
  assert (HkX : 53507.89125 <= PI / 180 * Xs <= 53510.83977).
  { pose proof (mul_iv _ _ _ _ _ _ Hk HXs ltac:(lra) ltac:(lra)). lra. }
  assert (HkY : 86922.09638 <= PI / 180 * Ys <= 86922.43661).
  { pose proof (mul_iv _ _ _ _ _ _ Hk HYs ltac:(lra) ltac:(lra)). lra. }
  assert (HkZ : 44270.81432 <= PI / 180 * Zs <= 44270.81723).
  { pose proof (mul_iv _ _ _ _ _ _ Hk HZs ltac:(lra) ltac:(lra)). lra. }
  assert (HXt : 3065422.383 <= Xt <= 3065591.226) by (unfold Xt; lra).
  assert (HYt : 4980260.921 <= Yt <= 4980280.262) by (unfold Yt; lra).
  assert (HZt : 2536755.817 <= Zt <= 2536755.905) by (unfold Zt; lra).
  (* ECEF -> geodetic on Clarke 1880 *)
  assert (HXX : 9396814386000 <= Xt * Xt <= 9397849565000).
  { pose proof (mul_iv _ _ _ _ _ _ HXt HXt ltac:(lra) ltac:(lra)). lra. }
  assert (HYY : 24802998840000 <= Yt * Yt <= 24803191490000).
  { pose proof (mul_iv _ _ _ _ _ _ HYt HYt ltac:(lra) ltac:(lra)). lra. }
  assert (Hp : 5848060.6380200 <= p <= 5848165.6145400) by (unfold p; apply sqrt_iv; lra).
  assert (Hpf : 5828133.012 <= p * (1 - 1 / 293.465) <= 5828237.632) by lra.
  assert (Hq0 : 0.4352526401 <= Zt / (p * (1 - 1 / 293.465)) <= 0.4352604685).
  { pose proof (div_iv _ _ _ _ _ _ HZt Hpf ltac:(lra) ltac:(lra)). lra. }
  assert (Hth : 0.41052256921100 <= th <= 0.41052915967100).
  { unfold th. exact (muscat_theta_iv _ Hq0). }
  assert (Hsth : 0.3990885317 <= sin th <= 0.3990945756).
  { pose proof (sin_iv _ _ _ Hth ltac:(lra) ltac:(lra)) as H.
    rewrite sin_lb_eq, sin_ub_eq in H. lra. }
  assert (Hcth : 0.9169097464 <= cos th <= 0.9169123967).
  { pose proof (cos_iv _ _ _ Hth ltac:(lra) ltac:(lra)) as H.
    rewrite cos_lb_eq, cos_ub_eq in H. lra. }
  assert (Hsth3 : 0.06356349138 <= sin th ^ 3 <= 0.06356637930).
  { pose proof (pow_iv _ _ _ 3 Hsth ltac:(lra)). lra. }
  assert (Hcth3 : 0.7708675556 <= cos th ^ 3 <= 0.7708742402).
  { pose proof (pow_iv _ _ _ 3 Hcth ltac:(lra)). lra. }
  assert (Hnum : 2539523.553 <= num <= 2539523.768) by (unfold num; lra).
  assert (Hden : 5814608.943 <= den <= 5814714.211) by (unfold den; lra).
  assert (Hq : 0.4367409060 <= num / den <= 0.4367488499).
  { pose proof (div_iv _ _ _ _ _ _ Hnum Hden ltac:(lra) ltac:(lra)). lra. }
  assert (Hr : 1.624567841 <= Yt / Xt <= 1.624663632).
  { pose proof (div_iv _ _ _ _ _ _ HYt HXt ltac:(lra) ltac:(lra)). lra. }
  destruct (ecefToGeodetic_pos Xt Yt Zt a_psd f_psd p th num den)
    as [E1 E2]; try reflexivity; try (unfold a_psd, f_psd; lra).
  exists (atan (num / den)), (atan (Yt / Xt)).
  unfold wgs84ToPSD93. rewrite HE, HH. cbv beta iota.
  rewrite E1, E2, tan_atan.
  split; [reflexivity|]. split; [reflexivity|]. split; [|split]; [..|lra].
  - exact (muscat_phi_iv _ Hq).
  - exact (muscat_lam_iv _ Hr).
Qed.

(** The UTM stage of the fixture: for a PSD93 point in the enclosure
    found above, the zone-40 grid coordinates. *)
Lemma muscat_utm (phi lam : R) :
  0.41177311462800 <= phi <= 0.41177979511200 -> 1.0189983289300 <= lam <= 1.0190509145800 ->
  0.4367409060 <= tan phi <= 0.4367488499 ->
  641000 <= easting (psd93ToUTM (rad2deg phi) (rad2deg lam) 40) <= 642000 /\
  2609000 <= northing (psd93ToUTM (rad2deg phi) (rad2deg lam) 40) <= 2610000.
Proof.
  intros Hphi Hlam Ht. pose proof pi_bounds as Hpi.
  unfold psd93ToUTM; cbn [easting northing].
  rewrite !deg2rad_rad2deg, sin_2a.
  set (N := 6378249.145 / sqrt (1 - (2 * (1 / 293.465) - 1 / 293.465 * (1 / 293.465)) * sin phi * sin phi)).
  set (A := cos phi * (lam - deg2rad (6 * 40 - 183))).
  set (C := (2 * (1 / 293.465) - 1 / 293.465 * (1 / 293.465)) / (1 - (2 * (1 / 293.465) - 1 / 293.465 * (1 / 293.465))) * cos phi * cos phi).
  set (T := tan phi * tan phi).
  assert (Hs : 0.4002348599 <= sin phi <= 0.4002409830).
  { pose proof (sin_iv _ _ _ Hphi ltac:(lra) ltac:(lra)) as H.
    rewrite sin_lb_eq, sin_ub_eq in H. lra. }
  assert (Hc : 0.9164099072 <= cos phi <= 0.9164126016).
  { pose proof (cos_iv _ _ _ Hphi ltac:(lra) ltac:(lra)) as H.
    rewrite cos_lb_eq, cos_ub_eq in H. lra. }
  assert (Hss : 0.1601879430 <= sin phi * sin phi <= 0.1601928445).
  { pose proof (mul_iv _ _ _ _ _ _ Hs Hs ltac:(lra) ltac:(lra)). lra. }
  assert (Hcc : 0.8398071180 <= cos phi * cos phi <= 0.8398120564).
  { pose proof (mul_iv _ _ _ _ _ _ Hc Hc ltac:(lra) ltac:(lra)). lra. }
  assert (HT : 0.1907426189 <= T <= 0.1907495579).
  { pose proof (mul_iv _ _ _ _ _ _ Ht Ht ltac:(lra) ltac:(lra)). unfold T. lra. }
  assert (HC : 0.005752776281 <= C <= 0.005752810110) by (unfold C; lra).
  assert (Hsqn : 0.99945491452800 <= sqrt (1 - (2 * (1 / 293.465) - 1 / 293.465 * (1 / 293.465)) * sin phi * sin phi) <= 0.99945493121200).
  { apply sqrt_iv; lra. }
  assert (HN : 6381727.625 <= N <= 6381727.733).
  { pose proof (div_iv _ _ _ _ _ _ (conj (Rle_refl 6378249.145) (Rle_refl 6378249.145)) Hsqn
                 ltac:(lra) ltac:(lra)).
    unfold N. lra. }
  assert (Hdl : 0.02416064059 <= lam - deg2rad (6 * 40 - 183) <= 0.02421325792) by (unfold deg2rad; lra).
  assert (HA : 0.02214105040 <= A <= 0.02218933469).
  { pose proof (mul_iv _ _ _ _ _ _ Hc Hdl ltac:(lra) ltac:(lra)). unfold A. lra. }
  assert (HA2 : 0.0004902261128 <= A * A <= 0.0004923665740).
  { pose proof (mul_iv _ _ _ _ _ _ HA HA ltac:(lra) ltac:(lra)). lra. }
  assert (HA3 : 0.00001085412107 <= A ^ 3 <= 0.00001092528671) by (pose proof (pow_iv _ _ _ 3 HA ltac:(lra)); lra).
  assert (HA4 : 0.0000002403216416 <= A ^ 4 <= 0.0000002424248432) by (pose proof (pow_iv _ _ _ 4 HA ltac:(lra)); lra).
  assert (HA5 : 0.000000005320973580 <= A ^ 5 <= 0.000000005379245983) by (pose proof (pow_iv _ _ _ 5 HA ltac:(lra)); lra).
  assert (HA6 : 0.0000000001178119442 <= A ^ 6 <= 0.0000000001193618895) by (pose proof (pow_iv _ _ _ 6 HA ltac:(lra)); lra).
  assert (HTT : 0.03638274666 <= T * T <= 0.03638539384).
  { pose proof (mul_iv _ _ _ _ _ _ HT HT ltac:(lra) ltac:(lra)). lra. }
  assert (HCC : 0.00003309443493 <= C * C <= 0.00003309482417).
  { pose proof (mul_iv _ _ _ _ _ _ HC HC ltac:(lra) ltac:(lra)). lra. }
  assert (HW3 : 0.8150032183 <= 1 - T + C <= 0.8150101913) by lra.
  assert (HK5 : 1.619783861 <= 5 - 18 * T + T * T + 72 * C - 58 * (2 * (1 / 293.465) - 1 / 293.465 * (1 / 293.465)) / (1 - (2 * (1 / 293.465) - 1 / 293.465 * (1 / 293.465))) <= 1.619913847) by lra.
  assert (HW3A3 : 0.000008846143603 <= (1 - T + C) * A ^ 3 <= 0.000008904220012).
  { pose proof (mul_iv _ _ _ _ _ _ HW3 HA3 ltac:(lra) ltac:(lra)). lra. }
  assert (HK5A5 : 0.000000008618827129 <= (5 - 18 * T + T * T + 72 * C - 58 * (2 * (1 / 293.465) - 1 / 293.465 * (1 / 293.465)) / (1 - (2 * (1 / 293.465) - 1 / 293.465 * (1 / 293.465)))) * A ^ 5 <= 0.000000008713915055).
  { pose proof (mul_iv _ _ _ _ _ _ HK5 HA5 ltac:(lra) ltac:(lra)). lra. }
  assert (HS : 0.02214252482 <= A + (1 - T + C) * A ^ 3 / 6 +
      (5 - 18 * T + T * T + 72 * C - 58 * (2 * (1 / 293.465) - 1 / 293.465 * (1 / 293.465)) / (1 - (2 * (1 / 293.465) - 1 / 293.465 * (1 / 293.465)))) * A ^ 5 / 120 <= 0.02219081880) by lra.
  assert (HK4 : 4.861157806 <= 5 - T + 9 * C + 4 * C * C <= 4.861165052) by lra.
  assert (HK6 : 51.16403583 <= 61 - 58 * T + T * T + 600 * C - 330 * (2 * (1 / 293.465) - 1 / 293.465 * (1 / 293.465)) / (1 - (2 * (1 / 293.465) - 1 / 293.465 * (1 / 293.465))) <= 51.16446125) by lra.
  assert (HK4A4 : 0.000001168241424 <= (5 - T + 9 * C + 4 * C * C) * A ^ 4 <= 0.000001178467176).
  { pose proof (mul_iv _ _ _ _ _ _ HK4 HA4 ltac:(lra) ltac:(lra)). lra. }
  assert (HK6A6 : 0.000000006027734534 <= (61 - 58 * T + T * T + 600 * C - 330 * (2 * (1 / 293.465) - 1 / 293.465 * (1 / 293.465)) / (1 - (2 * (1 / 293.465) - 1 / 293.465 * (1 / 293.465)))) * A ^ 6 <= 0.000000006107086771).
  { pose proof (mul_iv _ _ _ _ _ _ HK6 HA6 ltac:(lra) ltac:(lra)). lra. }
  assert (HQ : 0.0002451617414 <= A * A / 2 + (5 - T + 9 * C + 4 * C * C) * A ^ 4 / 24 +
      (61 - 58 * T + T * T + 600 * C - 330 * (2 * (1 / 293.465) - 1 / 293.465 * (1 / 293.465)) / (1 - (2 * (1 / 293.465) - 1 / 293.465 * (1 / 293.465)))) * A ^ 6 / 720 <= 0.0002462323983) by lra.
  assert (HNt : 2787161.504 <= N * tan phi <= 2787212.248).
  { pose proof (mul_iv _ _ _ _ _ _ HN Ht ltac:(lra) ltac:(lra)). lra. }
  assert (Hsc : 0.3667791908 <= sin phi * cos phi <= 0.3667858805).
  { pose proof (mul_iv _ _ _ _ _ _ Hs Hc ltac:(lra) ltac:(lra)). lra. }
  pose proof (mul_iv _ _ _ _ _ _ HN HS ltac:(lra) ltac:(lra)) as HNS.
  pose proof (mul_iv _ _ _ _ _ _ HNt HQ ltac:(lra) ltac:(lra)) as HNtQ.
  pose proof (SIN_bound (4 * phi)). pose proof (SIN_bound (6 * phi)).
  split; lra.
Qed.

Lemma muscat_fixture_bounds :
  641000 <= easting (psd93ToUTM (t1 (wgs84ToPSD93 23.588 58.3829 0))
                                (t2 (wgs84ToPSD93 23.588 58.3829 0)) 40) <= 642000 /\
  2609000 <= northing (psd93ToUTM (t1 (wgs84ToPSD93 23.588 58.3829 0))
                                  (t2 (wgs84ToPSD93 23.588 58.3829 0)) 40) <= 2610000.
Proof.
  destruct muscat_psd93 as (phi & lam & E1 & E2 & Hphi & Hlam & Ht).
  rewrite E1, E2. exact (muscat_utm phi lam Hphi Hlam Ht).
Qed.

(** C1 (amended): the point WGS84 (23.588, 58.3829), converted by
    [wgs84ToPSD93] and then by [psd93ToUTM] in zone 40, has an easting
    between 641,000 and 642,000 m (the point lies about 1.4 degrees east
    of the zone's central meridian 57E) and a northing between 2,609,000
    and 2,610,000 m. *)
Theorem muscat_fixture_psd93_utm40 :
  641000 <= easting (psd93ToUTM (t1 (wgs84ToPSD93 23.588 58.3829 0))
                                (t2 (wgs84ToPSD93 23.588 58.3829 0)) 40) <= 642000 /\
  2609000 <= northing (psd93ToUTM (t1 (wgs84ToPSD93 23.588 58.3829 0))
                                  (t2 (wgs84ToPSD93 23.588 58.3829 0)) 40) <= 2610000.
Proof. exact muscat_fixture_bounds. Qed.

(** C1 (counterexample): the easting of the fixture is above 510,000 m,
    outside the range 490,000 to 510,000 m. *)
Lemma muscat_fixture_easting_above_510000 :
  510000 < easting (psd93ToUTM (t1 (wgs84ToPSD93 23.588 58.3829 0))
                               (t2 (wgs84ToPSD93 23.588 58.3829 0)) 40).
Proof. destruct muscat_fixture_bounds as [[H _] _]. lra. Qed.

(** ** Further properties of coordsys.js *)

(** X1: [rad2deg] and [deg2rad] are inverse to each other: converting
    degrees to radians and back, or radians to degrees and back, returns
    the input. *)
Theorem deg_rad_roundtrip :
  (forall d, rad2deg (deg2rad d) = d) /\ (forall r, deg2rad (rad2deg r) = r).
Proof. split; [exact rad2deg_deg2rad | exact deg2rad_rad2deg]. Qed.

(** X2: at height 0, [geodeticToECEF] returns a point of the ellipsoid
    surface: (X^2 + Y^2) / a^2 + Z^2 / b^2 = 1 with b = a (1 - f), for
    every latitude and longitude, when a > 0 and 0 <= f < 1. *)
Theorem geodeticToECEF_on_ellipsoid (lat lon a f : R) :
  0 < a -> 0 <= f < 1 ->
  let '(X, Y, Z) := geodeticToECEF lat lon 0 a f in
  (X * X + Y * Y) / (a * a) + Z * Z / (a * (1 - f) * (a * (1 - f))) = 1.
Proof.
  intros Ha Hf. unfold geodeticToECEF.
  set (la := deg2rad lat). set (lo := deg2rad lon).
  destruct (N_ge_a a f (sin la) Ha Hf (SIN_bound _)) as [HD _].
  set (D := 1 - (2 * f - f * f) * sin la * sin la) in *.
  assert (Hq : sqrt D * sqrt D = D) by (apply sqrt_sqrt; lra).
  assert (Hq0 : 0 < sqrt D) by (apply sqrt_lt_R0; lra).
  pose proof (sin2_cos2' la) as Ela. pose proof (sin2_cos2' lo) as Elo.
  assert (H1f : 0 < 1 - f) by lra.
  assert (HDe : D = 1 - (2 * f - f * f) * sin la * sin la) by reflexivity.
  rewrite !Rplus_0_r. clearbody D la lo.
  rewrite (ellipsoid_identity a f (sqrt D)) by lra.
  rewrite Hq, Elo. rewrite HDe in *.
  replace (cos la * cos la) with (1 - sin la * sin la) by lra.
  field. lra.
Qed.

(** X3: [geodeticToECEF] followed by [ecefToGeodetic] on the same
    ellipsoid returns the input longitude exactly, for every longitude in
    (-180, 180], latitude in (-90, 90) and height above -a. *)
Theorem ecef_roundtrip_lon (lat lon h a f : R) :
  0 < a -> 0 <= f < 1 -> -90 < lat < 90 -> -180 < lon <= 180 -> - a < h ->
  let '(X, Y, Z) := geodeticToECEF lat lon h a f in
  t2 (ecefToGeodetic X Y Z a f) = lon.
Proof.
  intros Ha Hf Hlat Hlon Hh. pose proof PI_RGT_0 as Hpi.
  unfold geodeticToECEF, ecefToGeodetic, t2; cbn [fst snd].
  destruct (N_ge_a a f (sin (deg2rad lat)) Ha Hf (SIN_bound _)) as [_ HN].
  assert (Hc : 0 < cos (deg2rad lat)) by (apply cos_gt_0; unfold deg2rad; nra).
  rewrite atan2_sin_cos.
  - apply rad2deg_deg2rad.
  - apply Rmult_lt_0_compat; lra.
  - unfold deg2rad; split; nra.
Qed.

(** X4: on the equator, [geodeticToECEF] followed by [ecefToGeodetic] on
    the same ellipsoid is exact: it returns (0, lon, h) for every
    longitude in (-180, 180] and every height h with e2 a < a + h,
    where e2 = 2 f - f^2. *)
Theorem ecef_roundtrip_equator (lon h a f : R) :
  0 < a -> 0 <= f < 1 -> -180 < lon <= 180 -> (2 * f - f * f) * a < a + h ->
  (let '(X, Y, Z) := geodeticToECEF 0 lon h a f in ecefToGeodetic X Y Z a f) = (0, lon, h).
Proof.
  intros Ha Hf Hlon Hh. pose proof PI_RGT_0 as Hpi.
  pose proof (e2_range f Hf) as He.
  assert (Hah : 0 < a + h) by nra.
  unfold geodeticToECEF, ecefToGeodetic.
  replace (deg2rad 0) with 0 by (unfold deg2rad; field).
  rewrite sin_0, cos_0, !Rmult_0_r, Rminus_0_r, sqrt_1, !Rmult_1_r.
  replace (a / 1 + h) with (a + h) by field.
  assert (Hp : sqrt ((a + h) * cos (deg2rad lon) * ((a + h) * cos (deg2rad lon)) +
                     (a + h) * sin (deg2rad lon) * ((a + h) * sin (deg2rad lon))) = a + h).
  { replace ((a + h) * cos (deg2rad lon) * ((a + h) * cos (deg2rad lon)) +
             (a + h) * sin (deg2rad lon) * ((a + h) * sin (deg2rad lon)))
      with ((a + h) * (a + h) * (sin (deg2rad lon) * sin (deg2rad lon) +
                                 cos (deg2rad lon) * cos (deg2rad lon))) by ring.
    rewrite sin2_cos2', Rmult_1_r. apply sqrt_square. lra. }
  rewrite Hp.
  rewrite Rmult_0_l.
  rewrite atan2_0_pos by (apply Rmult_lt_0_compat; [apply Rmult_lt_0_compat|]; lra).
  rewrite sin_0, cos_0.
  rewrite atan2_sin_cos by (lra || (unfold deg2rad; split; nra)).
  rewrite rad2deg_deg2rad.
  replace (0 + (2 * f - f * f) / (1 - (2 * f - f * f)) * (1 - f) * a * 0 ^ 3) with 0 by ring.
  rewrite atan2_0_pos by nra.
  rewrite sin_0, cos_0, !Rmult_0_r, Rminus_0_r, sqrt_1.
  unfold rad2deg. f_equal; [f_equal|]; field; lra.
Qed.

(** X5: negating the latitude in [geodeticToECEF] negates Z and leaves
    X and Y unchanged (mirror image in the equatorial plane). *)
Theorem geodeticToECEF_mirror (lat lon h a f : R) :
  geodeticToECEF (- lat) lon h a f =
  let '(X, Y, Z) := geodeticToECEF lat lon h a f in (X, Y, - Z).
Proof.
  unfold geodeticToECEF.
  replace (deg2rad (- lat)) with (- deg2rad lat) by (unfold deg2rad; field).
  rewrite sin_neg, cos_neg.
  replace (1 - (2 * f - f * f) * - sin (deg2rad lat) * - sin (deg2rad lat))
    with (1 - (2 * f - f * f) * sin (deg2rad lat) * sin (deg2rad lat)) by ring.
  f_equal. ring.
Qed.

(** X6: for a point off the equatorial plane (Z <> 0), [ecefToGeodetic]
    of the mirror image (X, Y, -Z) is (-lat, lon, h) where (lat, lon, h)
    is the result for (X, Y, Z). *)
Theorem ecefToGeodetic_mirror (X Y Z a f : R) :
  0 < a -> 0 <= f < 1 -> Z <> 0 ->
  ecefToGeodetic X Y (- Z) a f =
  let '(lat, lon, h) := ecefToGeodetic X Y Z a f in (- lat, lon, h).
Proof.
  intros Ha Hf HZ.
  unfold ecefToGeodetic. cbv beta iota zeta.
  assert (Hp : 0 <= sqrt (X * X + Y * Y)) by apply sqrt_pos.
  set (p := sqrt (X * X + Y * Y)) in *.
  assert (HZa : ~ (Z * a = 0 /\ p * (1 - f) * a < 0)).
  { intros [H _]. apply Rmult_integral in H. lra. }
  replace (- Z * a) with (- (Z * a)) by ring.
  rewrite (atan2_opp _ _ HZa).
  set (th := atan2 (Z * a) (p * (1 - f) * a)).
  rewrite sin_neg, cos_neg.
  set (num := Z + (2 * f - f * f) / (1 - (2 * f - f * f)) * (1 - f) * a * sin th ^ 3).
  replace (- Z + (2 * f - f * f) / (1 - (2 * f - f * f)) * (1 - f) * a * (- sin th) ^ 3)
    with (- num) by (unfold num; ring).
  assert (Hnum : num <> 0).
  { destruct (Rlt_or_le 0 Z) as [Hpos|Hneg].
    - pose proof (bowring_num_pos Z p a f Hpos Hp Ha Hf). fold th in H. unfold num. lra.
    - assert (Hpos : 0 < - Z) by lra.
      pose proof (bowring_num_pos (- Z) p a f Hpos Hp Ha Hf) as H.
      replace (- Z * a) with (- (Z * a)) in H by ring.
      rewrite (atan2_opp _ _ HZa) in H. fold th in H.
      rewrite sin_neg in H. unfold num.
      intro E. revert H. replace (- Z) with ((2 * f - f * f) / (1 - (2 * f - f * f)) * (1 - f) * a * sin th ^ 3) by lra.
      replace ((- sin th) ^ 3) with (- (sin th ^ 3)) by ring. lra. }
  rewrite atan2_opp by (intros [H _]; exact (Hnum H)).
  set (lat := atan2 num (p - (2 * f - f * f) * a * cos th ^ 3)).
  rewrite sin_neg, cos_neg.
  replace (1 - (2 * f - f * f) * - sin lat * - sin lat)
    with (1 - (2 * f - f * f) * sin lat * sin lat) by ring.
  unfold rad2deg, Rdiv. f_equal. f_equal. ring.
Qed.

(** X7: [wgs84ToPSD93] and [psd93ToWGS84] give the same result for the
    input longitudes lon and lon + 360 n, for every natural number n. *)
Theorem wgs84ToPSD93_lon_period (lat lon h : R) (n : nat) :
  wgs84ToPSD93 lat (lon + 360 * INR n) h = wgs84ToPSD93 lat lon h /\
  psd93ToWGS84 lat (lon + 360 * INR n) h = psd93ToWGS84 lat lon h.
Proof.
  unfold wgs84ToPSD93, psd93ToWGS84. rewrite !geodeticToECEF_lon_period. split; reflexivity.
Qed.

(** X8: [psd93ToUTM] at latitude -lat has the same easting as at lat and
    the opposite northing; in particular southern latitudes get negative
    northings. *)
Theorem psd93ToUTM_lat_mirror (la lo z : R) :
  easting (psd93ToUTM (- la) lo z) = easting (psd93ToUTM la lo z) /\
  northing (psd93ToUTM (- la) lo z) = - northing (psd93ToUTM la lo z).
Proof.
  unfold psd93ToUTM; cbn [easting northing].
  replace (deg2rad (- la)) with (- deg2rad la) by (unfold deg2rad; field).
  set (L := deg2rad la).
  replace (2 * - L) with (- (2 * L)) by ring.
  replace (4 * - L) with (- (4 * L)) by ring.
  replace (6 * - L) with (- (6 * L)) by ring.
  rewrite !sin_neg, !cos_neg, !tan_neg.
  replace (1 - (2 * (1 / 293.465) - 1 / 293.465 * (1 / 293.465)) * - sin L * - sin L)
    with (1 - (2 * (1 / 293.465) - 1 / 293.465 * (1 / 293.465)) * sin L * sin L) by ring.
  unfold Rdiv. split; ring.
Qed.

(** X9: [psd93ToUTM] depends on the longitude and the zone only through
    their offset: shifting the longitude by 6 k degrees and the zone by k
    leaves easting and northing unchanged. *)
Theorem psd93ToUTM_zone_shift (la lo z k : R) :
  psd93ToUTM la (lo + 6 * k) (z + k) =
  {| easting := easting (psd93ToUTM la lo z);
     northing := northing (psd93ToUTM la lo z);
     zone := z + k |}.
Proof.
  unfold psd93ToUTM; cbn [easting northing].
  replace (deg2rad (lo + 6 * k) - deg2rad (6 * (z + k) - 183))
    with (deg2rad lo - deg2rad (6 * z - 183)) by (unfold deg2rad, Rdiv; ring).
  reflexivity.
Qed.

(** X10: [utmToPSD93] at northing -n returns the opposite latitude and
    the same longitude as at northing n. *)
Theorem utmToPSD93_northing_mirror (E n z : R) :
  lat (utmToPSD93 E (- n) z) = - lat (utmToPSD93 E n z) /\
  lon (utmToPSD93 E (- n) z) = lon (utmToPSD93 E n z).
Proof.
  rewrite !utmToPSD93_split, utmMu_opp, utmFootpoint_opp.
  apply utmFromFootpoint_opp.
Qed.

(** X11: [utmToPSD93] in zone z + k returns the latitude of zone z and
    the longitude of zone z shifted by 6 k degrees. *)
Theorem utmToPSD93_zone_shift (E n z k : R) :
  utmToPSD93 E n (z + k) =
  {| lat := lat (utmToPSD93 E n z); lon := lon (utmToPSD93 E n z) + 6 * k |}.
Proof. rewrite !utmToPSD93_split. apply utmFromFootpoint_zone_shift. Qed.

(** X12: [utmToPSD93] maps every point of northing 0 to latitude 0,
    whatever the easting and zone. *)
Theorem utmToPSD93_equator (E z : R) : lat (utmToPSD93 E 0 z) = 0.
Proof. rewrite utmToPSD93_split, utmMu_0, utmFootpoint_0. apply utmFromFootpoint_lat_0. Qed.

(** X13: the origin of a zone (latitude 0 on its central meridian
    6 zone - 183) is projected by [psd93ToUTM] and recovered exactly by
    [utmToPSD93] from the returned easting, northing and zone. *)
Theorem utm_origin_roundtrip (z : R) :
  utmToPSD93 (easting (psd93ToUTM 0 (6 * z - 183) z))
             (northing (psd93ToUTM 0 (6 * z - 183) z))
             (zone (psd93ToUTM 0 (6 * z - 183) z)) = {| lat := 0; lon := 6 * z - 183 |}.
Proof.
  rewrite psd93ToUTM_origin; cbn [easting northing zone].
  rewrite utmToPSD93_split, utmMu_0, utmFootpoint_0, Rminus_diag.
  apply utmFromFootpoint_origin.
Qed.

Lemma geodeticToECEF_on_ellipsoid_witness :
  let '(X, Y, Z) := geodeticToECEF 23.588 58.3829 0 a_wgs f_wgs in
  (X * X + Y * Y) / (a_wgs * a_wgs) +
  Z * Z / (a_wgs * (1 - f_wgs) * (a_wgs * (1 - f_wgs))) = 1.
Proof. apply geodeticToECEF_on_ellipsoid; unfold a_wgs, f_wgs; lra. Defined.

Lemma ecef_roundtrip_lon_witness :
  let '(X, Y, Z) := geodeticToECEF 23.588 58.3829 100 a_psd f_psd in
  t2 (ecefToGeodetic X Y Z a_psd f_psd) = 58.3829.
Proof. apply ecef_roundtrip_lon; unfold a_psd, f_psd; lra. Defined.

Lemma ecef_roundtrip_equator_witness :
  (let '(X, Y, Z) := geodeticToECEF 0 58.3829 100 a_wgs f_wgs in
   ecefToGeodetic X Y Z a_wgs f_wgs) = (0, 58.3829, 100).
Proof. apply ecef_roundtrip_equator; unfold a_wgs, f_wgs; lra. Defined.

Lemma ecefToGeodetic_mirror_witness :
  ecefToGeodetic 3000000 5000000 (Ropp 2500000) a_psd f_psd =
  let '(lat, lon, h) := ecefToGeodetic 3000000 5000000 2500000 a_psd f_psd in
  (- lat, lon, h).
Proof. apply ecefToGeodetic_mirror; unfold a_psd, f_psd; lra. Defined.
